(** * Multi-tool agent (agent.py): tools, turn loop and session model

    A Python [str] is represented by a [string] holding its UTF-8
    encoding; concatenation, equality, emptiness and removal of the
    ASCII space agree on both views of a well-formed string. *)

From Stdlib Require Import Ascii String.
From stdpp Require Import gmap strings list fin_maps.

Open Scope string_scope.

(** ** Python outcomes: a value is returned or an exception is raised *)

Inductive PyExn := KeyError | IndexError | AttributeError | TypeError.

Inductive outcome (A : Type) :=
| Return (a : A)
| Raise (e : PyExn).
Arguments Return {A} a.
Arguments Raise {A} e.

#[global] Instance outcome_ret : MRet outcome := fun A a => Return a.

#[global] Instance outcome_bind : MBind outcome := fun A B k c =>
  match c with
  | Return a => k a
  | Raise e => Raise e
  end.

(** [d[k]] on a dict: KeyError when the key is missing. *)
Definition dict_getitem {V} (d : gmap string V) (k : string) : outcome V :=
  match d !! k with
  | Some v => Return v
  | None => Raise KeyError
  end.

(** [k in d] on a dict. *)
Definition dict_contains {V} (d : gmap string V) (k : string) : bool :=
  bool_decide (is_Some (d !! k)).

(** [l[i]] on a list: IndexError when out of range. *)
Definition list_getitem {A} (l : list A) (i : nat) : outcome A :=
  match l !! i with
  | Some a => Return a
  | None => Raise IndexError
  end.

(** ** STEP 1: tools *)

(** [s.replace(" ", "")]: every occurrence of the space is removed. *)
Fixpoint replace_space (s : string) : string :=
  match s with
  | EmptyString => EmptyString
  | String c r =>
      if Ascii.eqb c " "%char then replace_space r
      else String c (replace_space r)
  end.

(** Lower-casing of the ASCII letters, every other byte kept.  This is
    what [str.lower] computes on a string whose non-ASCII characters are
    caseless or already lower case. *)
Definition lower_byte (c : ascii) : ascii :=
  let n := Ascii.nat_of_ascii c in
  if ((65 <=? n) && (n <=? 90))%nat then Ascii.ascii_of_nat (n + 32) else c.

Fixpoint lower_ascii (s : string) : string :=
  match s with
  | EmptyString => EmptyString
  | String c r => String (lower_byte c) (lower_ascii r)
  end.

Section Tools.

(** [str.lower] belongs to the Python runtime (full Unicode case
    mapping); the tools are stated for any such function. *)
Variable lower : string -> string.

Definition mock_weather_db : gmap string (gmap string string) :=
  {[ "hanoi"  := {[ "status" := "success"; "report" := "☀️ Hà Nội: Nắng đẹp, 25°C" ]};
     "hànội"  := {[ "status" := "success"; "report" := "☀️ Hà Nội: Nắng đẹp, 25°C" ]};
     "london" := {[ "status" := "success"; "report" := "☁️ London: Nhiều mây, 15°C" ]};
     "tokyo"  := {[ "status" := "success"; "report" := "🌧️ Tokyo: Mưa nhẹ, 18°C" ]} ]}.

Definition city_normalized (city : string) : string :=
  replace_space (lower city).

Definition get_weather (city : string) : outcome (gmap string string) :=
  if dict_contains mock_weather_db (city_normalized city) then
    dict_getitem mock_weather_db (city_normalized city)
  else
    Return {[ "status" := "error";
              "error_message" :=
                "Xin lỗi, không có thông tin thời tiết cho '" ++ city ++ "'." ]}.

(** Python truthiness of an [Optional[str]]: [None] and the empty
    string are false. *)
Definition str_truthy (o : option string) : bool :=
  match o with
  | Some (String _ _) => true
  | _ => false
  end.

Definition say_hello (name : option string) : string :=
  if str_truthy name then "👋 Xin chào, " ++ default "" name ++ "!"
  else "👋 Xin chào!".

Definition say_goodbye (_ : unit) : string :=
  "👋 Tạm biệt! Chúc bạn một ngày tốt lành! ✨".

End Tools.

(** ** STEP 2 and 3: the agents *)

Inductive ToolFn := tool_get_weather | tool_say_hello | tool_say_goodbye.

#[local] Unset Elimination Schemes.
Inductive Agent := mkAgent {
  name : string;
  model : string;
  description : string;
  instruction : string;
  tools : list ToolFn;
  sub_agents : list Agent
}.
#[local] Set Elimination Schemes.

Definition AGENT_MODEL : string := "gemini-2.5-flash".

Definition nl : string := String (ascii_of_nat 10) "".

Definition greeting_agent : Agent := {|
  model := AGENT_MODEL;
  name := "greeting_agent";
  instruction := "Nhiệm vụ DUY NHẤT: Chào hỏi thân thiện. "
              ++ "Dùng tool 'say_hello'. "
              ++ "Nếu user cung cấp tên, truyền cho tool. "
              ++ "KHÔNG làm gì khác.";
  description := "Xử lý greetings sử dụng 'say_hello'.";
  tools := [tool_say_hello];
  sub_agents := []
|}.

Definition weather_agent : Agent := {|
  name := "weather_agent";
  model := AGENT_MODEL;
  description := "Cung cấp thông tin thời tiết cho các thành phố.";
  instruction := "Bạn là trợ lý thời tiết. "
              ++ "Khi user hỏi về thời tiết, dùng tool 'get_weather'. "
              ++ "Nếu tool lỗi, thông báo lịch sự. "
              ++ "Nếu thành công, trình bày báo cáo rõ ràng.";
  tools := [tool_get_weather];
  sub_agents := []
|}.

Definition farewell_agent : Agent := {|
  model := AGENT_MODEL;
  name := "farewell_agent";
  instruction := "Nhiệm vụ DUY NHẤT: Tạm biệt lịch sự. "
              ++ "Dùng tool 'say_goodbye' khi user nói bye/tạm biệt. "
              ++ "KHÔNG làm gì khác.";
  description := "Xử lý farewells sử dụng 'say_goodbye'.";
  tools := [tool_say_goodbye];
  sub_agents := []
|}.

Definition root_agent : Agent := {|
  name := "weather_assistant_team";
  model := AGENT_MODEL;
  description := "Agent điều phối: Weather requests + delegate greetings/farewells.";
  instruction := "Bạn là Weather Agent chính điều phối team. "
              ++ "TRÁCH NHIỆM CHÍNH: Cung cấp thông tin thời tiết. "
              ++ "Dùng 'get_weather' CHỈ cho weather requests. "
              ++ nl ++ nl ++ "SUB-AGENTS: "
              ++ "1. 'greeting_agent': Xử lý 'Hi', 'Xin chào' → DELEGATE "
              ++ "2. 'farewell_agent': Xử lý 'Tạm biệt', 'Bye' → DELEGATE "
              ++ nl ++ nl ++ "PHÂN TÍCH query: "
              ++ "- Greeting? → delegate greeting_agent "
              ++ "- Farewell? → delegate farewell_agent "
              ++ "- Weather? → tự xử lý với get_weather "
              ++ "- Khác? → phản hồi lịch sự hoặc nói không xử lý được";
  tools := [tool_get_weather];
  sub_agents := [greeting_agent; farewell_agent]
|}.

(** What a turn is handed to. *)
Inductive Decision :=
| Delegate (child : Agent)
| InvokeTool (t : ToolFn)
| Decline.

(** Modelled from the spec: the routing decision of the reasoning engine
    (section 4.2), which no code of the repository implements; the
    agents only carry its policy as text.  The engine's judgements are
    parameters: [matches u d] says that the utterance [u] falls under
    the responsibility declared by the description [d], and
    [applies u t] that the own tool [t] can serve it.  Step 1: the
    children are tried first, in their order, each against its
    description, and the first that matches gets the turn; step 2: else,
    if the agent's own description matches, its matching own tool is
    invoked; step 3: else the agent declines. *)
Definition resolve (matches : string -> string -> bool)
    (applies : string -> ToolFn -> bool) (a : Agent) (utterance : string)
  : Decision :=
  match find (fun c => matches utterance (description c)) (sub_agents a) with
  | Some c => Delegate c
  | None =>
      if matches utterance (description a) then
        match find (applies utterance) (tools a) with
        | Some t => InvokeTool t
        | None => Decline
        end
      else Decline
  end.

(** Modelled from the spec: the tools that can run in a turn once it is
    decided (section 4.2: a child that gets the turn ends it itself,
    with its own tools). *)
Definition tools_in_turn (d : Decision) : list ToolFn :=
  match d with
  | Delegate c => tools c
  | InvokeTool t => [t]
  | Decline => []
  end.

(** ** STEP 4: one turn of conversation *)

(** The fields of [google.genai.types] and [google.adk.events.Event]
    that the code reads.  An optional field holds [None] or a value;
    [is_final_response] is the answer of the event's method of that
    name. *)
Record Part := { text : option string }.

Record Content := { role : option string; parts : option (list Part) }.

Record EventActions := { escalate : option bool }.

Record Event := {
  is_final_response : bool;
  content : option Content;
  actions : option EventActions;
  error_message : option string
}.

(** [event.content and event.content.parts]: true for a content with a
    non-empty list of parts. *)
Definition content_and_parts (event : Event) : bool :=
  match content event with
  | Some c => match parts c with
              | Some (_ :: _) => true
              | _ => false
              end
  | None => false
  end.

(** [event.actions and event.actions.escalate] *)
Definition actions_and_escalate (event : Event) : bool :=
  match actions event with
  | Some a => match escalate a with
              | Some true => true
              | _ => false
              end
  | None => false
  end.

(** [event.content.parts[0].text], with the exceptions of each step. *)
Definition first_part_text (event : Event) : outcome (option string) :=
  match content event with
  | None => Raise AttributeError
  | Some c =>
      match parts c with
      | None => Raise TypeError
      | Some ps => p ← list_getitem ps 0; mret (text p)
      end
  end.

(** [x or d] on an optional string. *)
Definition str_or (x : option string) (d : string) : string :=
  if str_truthy x then default "" x else d.

(** The body of [if event.is_final_response():], up to the [break];
    the result is the new value of [final_response_text]. *)
Definition on_final_response (event : Event) (final_response_text : option string)
  : outcome (option string) :=
  if content_and_parts event then
    first_part_text event
  else if actions_and_escalate event then
    mret (Some ("⚠️ Agent escalated: "
                ++ str_or (error_message event) "Không có message."))
  else
    mret final_response_text.

(** A runner hands out an asynchronous generator: [run_async] makes its
    initial state and [anext] asks it for the next event, which moves
    the state on and gives [None] once the generator is exhausted. *)
Class RunnerLike (R G : Type) := {
  run_async : R -> string -> string -> Content -> G;
  anext : G -> option Event * G
}.

(** The [async for] loop.  The generator may go on for ever, so the loop
    is cut by [fuel]: [None] says that it was still running when the
    fuel ran out.  Otherwise the outcome comes with the state in which
    the generator was left. *)
Fixpoint async_for {R G} `{RunnerLike R G} (fuel : nat) (g : G)
    (final_response_text : option string)
  : option (outcome (option string) * G) :=
  match fuel with
  | O => None
  | S fuel' =>
      match anext g with
      | (None, g') => Some (Return final_response_text, g')
      | (Some event, g') =>
          if is_final_response event then
            Some (on_final_response event final_response_text, g')
          else
            async_for fuel' g' final_response_text
      end
  end.

Definition no_response : string := "⚠️ Agent không tạo ra response.".

Definition call_agent_async {R G} `{RunnerLike R G} (fuel : nat)
    (query : string) (runner : R) (user_id session_id : string)
  : option (outcome (option string) * G) :=
  let content := {| role := Some "user";
                    parts := Some [ {| text := Some query |} ] |} in
  let final_response_text := Some no_response in
  async_for fuel (run_async runner user_id session_id content)
            final_response_text.

(** Two plain event sources: a finite sequence, and an endless one
    given by its n-th event. *)
#[global] Instance list_runner : RunnerLike (list Event) (list Event) := {
  run_async evs _ _ _ := evs;
  anext g := match g with
             | [] => (None, [])
             | e :: g' => (Some e, g')
             end
}.

#[global] Instance stream_runner : RunnerLike (nat -> Event) (nat * (nat -> Event)) := {
  run_async f _ _ _ := (0, f);
  anext g := (Some (snd g (fst g)), (S (fst g), snd g))
}.

(** ** Sessions and the runner *)

(** Modelled from the spec: Message and Session of section 3; the
    sessions of google.adk are not part of the repository. *)
Inductive Role := RoleUser | RoleAgent.

Record Message := { msg_role : Role; msg_text : string }.

Record Session := {
  applicationName : string;
  userId : string;
  sessionId : string;
  history : list Message
}.

Abbreviation SessionKey := (string * string * string)%type.

Definition append_message (m : Message) (s : Session) : Session :=
  {| applicationName := applicationName s;
     userId := userId s;
     sessionId := sessionId s;
     history := history s ++ [m] |}.

(** Modelled from the spec: createSession of section 4.4, that is
    [InMemorySessionService.create_session] of google.adk, which is not
    part of the repository.  The store maps an identity to its session;
    an identity already present gets its session back and the store is
    left as it is, a new one gets a session with an empty history. *)
Definition create_session (store : gmap SessionKey Session)
    (app_name user_id session_id : string)
  : Session * gmap SessionKey Session :=
  match store !! (app_name, user_id, session_id) with
  | Some s => (s, store)
  | None =>
      let s := {| applicationName := app_name; userId := user_id;
                  sessionId := session_id; history := [] |} in
      (s, <[(app_name, user_id, session_id) := s]> store)
  end.

(** [Runner(agent=..., app_name=..., session_service=...)].  The last
    field stands for the reasoning engine that the runner drives
    (startTurn of section 6): the events of a turn, given the agent,
    the session as it was and the new message. *)
Record Runner := {
  agent : Agent;
  app_name : string;
  session_service : gmap SessionKey Session;
  engine : Agent -> Session -> Content -> list Event
}.

Definition create_session_and_runner
    (engine : Agent -> Session -> Content -> list Event)
    (agent : Agent) (app_name user_id session_id : string)
  : gmap SessionKey Session * Runner * string * string :=
  let session_service : gmap SessionKey Session := ∅ in
  let '(session, session_service) :=
    create_session session_service app_name user_id session_id in
  let runner := {| agent := agent; app_name := app_name;
                   session_service := session_service;
                   engine := engine |} in
  (session_service, runner, user_id, session_id).

(** The default arguments of [create_session_and_runner]. *)
Definition default_app_name : string := "Weather Agent Demo".
Definition default_user_id : string := "user_1".
Definition default_session_id : string := "session_001".

(** The state of one run of the runner's generator: the store it works
    on, and the events still to be handed out once it has started. *)
Record RunState := {
  rs_runner : Runner;
  rs_key : SessionKey;
  rs_new_message : Content;
  rs_store : gmap SessionKey Session;
  rs_pending : option (list Event)
}.

(** Modelled from the spec: the messages of runTurn (section 4.3), the
    user message of the new content and the agent message of a final
    event that carries a text. *)
Definition user_message (c : Content) : Message :=
  {| msg_role := RoleUser;
     msg_text := match parts c with
                 | Some (p :: _) => default "" (text p)
                 | _ => ""
                 end |}.

Definition agent_message (e : Event) : option Message :=
  if is_final_response e && content_and_parts e then
    match first_part_text e with
    | Return (Some t) => Some {| msg_role := RoleAgent; msg_text := t |}
    | _ => None
    end
  else None.

(** Modelled from the spec: steps 1 and 2 of runTurn (section 4.3), done
    by [Runner.run_async] of google.adk when its generator is first
    asked for an event: the user message is appended to the history of
    the session, and the engine is started on the agent, the session as
    it was and the new message.  The spec gives no behaviour for an
    identity without a session; the run then has no event. *)
Definition runner_start (st : RunState) : RunState :=
  match rs_pending st with
  | Some _ => st
  | None =>
      match rs_store st !! rs_key st with
      | None =>
          {| rs_runner := rs_runner st; rs_key := rs_key st;
             rs_new_message := rs_new_message st;
             rs_store := rs_store st; rs_pending := Some [] |}
      | Some sess =>
          {| rs_runner := rs_runner st; rs_key := rs_key st;
             rs_new_message := rs_new_message st;
             rs_store :=
               <[rs_key st := append_message (user_message (rs_new_message st)) sess]>
                 (rs_store st);
             rs_pending :=
               Some (engine (rs_runner st) (agent (rs_runner st)) sess
                            (rs_new_message st)) |}
      end
  end.

(** Modelled from the spec: step 3 of runTurn (section 4.3), as far as
    it is the generator's: a final event with a text puts one agent
    message into the history before it is handed out; no other event
    touches the history. *)
Definition runner_anext (st : RunState) : option Event * RunState :=
  let st := runner_start st in
  match rs_pending st with
  | Some (e :: rest) =>
      (Some e,
       {| rs_runner := rs_runner st; rs_key := rs_key st;
          rs_new_message := rs_new_message st;
          rs_store :=
            match agent_message e with
            | Some m => alter (append_message m) (rs_key st) (rs_store st)
            | None => rs_store st
            end;
          rs_pending := Some rest |})
  | _ => (None, st)
  end.

#[global] Instance adk_runner : RunnerLike Runner RunState := {
  run_async r user_id session_id new_message :=
    {| rs_runner := r;
       rs_key := (app_name r, user_id, session_id);
       rs_new_message := new_message;
       rs_store := session_service r;
       rs_pending := None |};
  anext := runner_anext
}.

(** The state of a generator after [n] requests, and the answer to the
    request after those. *)
Fixpoint after {R G} `{RunnerLike R G} (n : nat) (g : G) : G :=
  match n with
  | O => g
  | S n' => after n' (snd (anext g))
  end.

Definition pull {R G} `{RunnerLike R G} (n : nat) (g : G) : option Event :=
  fst (anext (after n g)).

(** The message that [call_agent_async] builds from the query. *)
Definition new_message (query : string) : Content :=
  {| role := Some "user"; parts := Some [ {| text := Some query |} ] |}.

(** A history grown by some messages. *)
Definition extend (s : Session) (ms : list Message) : Session :=
  {| applicationName := applicationName s;
     userId := userId s;
     sessionId := sessionId s;
     history := history s ++ ms |}.

(** A text marked as a warning starts with the warning sign. *)
Definition warning_marked (s : string) : Prop :=
  exists rest, s = "⚠️" ++ rest.

(** Events used as examples: a tool call in progress, a final text, an
    escalation with and without a message, an escalation that also
    carries a text, and a final event whose only part has no text. *)
Definition ev_tool_call : Event :=
  {| is_final_response := false;
     content := Some {| role := Some "model"; parts := Some [ {| text := None |} ] |};
     actions := None;
     error_message := None |}.

Definition ev_text (t : string) : Event :=
  {| is_final_response := true;
     content := Some {| role := Some "model"; parts := Some [ {| text := Some t |} ] |};
     actions := None;
     error_message := None |}.

Definition ev_escalated (m : option string) : Event :=
  {| is_final_response := true;
     content := None;
     actions := Some {| escalate := Some true |};
     error_message := m |}.

Definition ev_escalated_with_text : Event :=
  {| is_final_response := true;
     content := Some {| role := Some "model"; parts := Some [ {| text := Some "Done." |} ] |};
     actions := Some {| escalate := Some true |};
     error_message := Some "internal timeout" |}.

Definition ev_final_without_text : Event :=
  {| is_final_response := true;
     content := Some {| role := Some "model"; parts := Some [ {| text := None |} ] |};
     actions := None;
     error_message := None |}.

(** The keys of the mock database, and what it is for a text to mention
    another. *)
Definition recognized_keys : list string := ["hanoi"; "hànội"; "london"; "tokyo"].

Definition mentions (s sub : string) : Prop :=
  exists pre post, s = pre ++ sub ++ post.

Definition error_record (city : string) : gmap string string :=
  {[ "status" := "error";
     "error_message" :=
       "Xin lỗi, không có thông tin thời tiết cho '" ++ city ++ "'." ]}.


(** Engines used as examples: an engine that makes two
    tool calls and then answers, and one that produces nothing. *)
Definition demo_engine (_ : Agent) (_ : Session) (_ : Content) : list Event :=
  [ev_tool_call; ev_tool_call; ev_text "Hello!"].

Definition silent_engine (_ : Agent) (_ : Session) (_ : Content) : list Event :=
  [].

(** Engine judgements used as examples: one for which every
    responsibility matches and every tool applies, one for which every
    description but the greeting child's matches, and one for which
    only the root's own description matches. *)
Definition eager_matches (_ : string) (_ : string) : bool := true.

Definition eager_applies (_ : string) (_ : ToolFn) : bool := true.

Definition all_but_greeting (_ : string) (d : string) : bool :=
  negb (String.eqb d (description greeting_agent)).

Definition only_root (_ : string) (d : string) : bool :=
  String.eqb d (description root_agent).

Definition demo_key : SessionKey :=
  (default_app_name, default_user_id, default_session_id).

Definition fresh_session : Session :=
  {| applicationName := default_app_name; userId := default_user_id;
     sessionId := default_session_id; history := [] |}.

Definition demo_runner (engine : Agent -> Session -> Content -> list Event)
  : Runner :=
  (create_session_and_runner engine root_agent
     default_app_name default_user_id default_session_id).1.1.2.

(** ** STEP 5: the example conversation *)

(** [s * n] on a string. *)
Fixpoint str_mul (s : string) (n : nat) : string :=
  match n with
  | O => ""
  | S n' => s ++ str_mul s n'
  end.

(** What an f-string puts for a value that is a text or [None]. *)
Definition format_value (v : option string) : string :=
  match v with
  | Some t => t
  | None => "None"
  end.

(** The two f-strings of the loop of [main]. *)
Definition user_line (query : string) : string :=
  nl ++ "👤 User: " ++ query.

Definition agent_line (response : option string) : string :=
  "🤖 Agent: " ++ format_value response.

(** The runner object after a run of its generator: the same runner on
    the store as the generator left it. *)
Definition runner_after (st : RunState) : Runner :=
  {| agent := agent (rs_runner st);
     app_name := app_name (rs_runner st);
     session_service := rs_store st;
     engine := engine (rs_runner st) |}.

(** The [for query in queries] loop of [main].  The texts printed so far,
    one for each call of [print], are threaded through; an exception
    ends the loop with the texts that were printed before it. *)
Fixpoint main_loop (fuel : nat) (runner : Runner) (user_id session_id : string)
    (queries : list string) (out : list string)
  : option (list string * outcome unit * Runner) :=
  match queries with
  | [] => Some (out, Return tt, runner)
  | query :: rest =>
      let out := (out ++ [user_line query])%list in
      match call_agent_async fuel query runner user_id session_id with
      | None => None
      | Some (Raise e, st) => Some (out, Raise e, runner_after st)
      | Some (Return response, st) =>
          main_loop fuel (runner_after st) user_id session_id rest
            (out ++ [agent_line response])%list
      end
  end.

Definition main_queries : list string :=
  [ "Xin chào!";
    "Thời tiết ở Hà Nội thế nào?";
    "Còn London thì sao?";
    "Cảm ơn, tạm biệt!" ].

Definition main (engine : Agent -> Session -> Content -> list Event) (fuel : nat)
  : option (list string * outcome unit) :=
  let out := [ str_mul "=" 60;
               "🤖 Multi-Agent Weather Assistant Demo";
               str_mul "=" 60 ] in
  let '(_, runner, user_id, session_id) :=
    create_session_and_runner engine root_agent
      "Weather Agent Team Demo" default_user_id default_session_id in
  let queries := main_queries in
  match main_loop fuel runner user_id session_id queries out with
  | None => None
  | Some (out, Raise e, _) => Some (out, Raise e)
  | Some (out, Return _, _) =>
      Some ((out ++ [ (nl ++ str_mul "=" 60)%string;
                      "✅ Demo hoàn thành!";
                      str_mul "=" 60 ])%list, Return tt)
  end.



(** More events used as examples: a final event with two parts that
    also escalates, and a final event with an empty list of parts and
    an error message but no escalation. *)
Definition ev_two_parts : Event :=
  {| is_final_response := true;
     content := Some {| role := Some "model";
                        parts := Some [ {| text := Some "Hello!" |};
                                        {| text := Some "More." |} ] |};
     actions := Some {| escalate := Some true |};
     error_message := Some "internal timeout" |}.

Definition ev_empty_final : Event :=
  {| is_final_response := true;
     content := Some {| role := Some "model"; parts := Some [] |};
     actions := Some {| escalate := Some false |};
     error_message := Some "internal timeout" |}.

Definition textless_engine (_ : Agent) (_ : Session) (_ : Content) : list Event :=
  [ev_final_without_text].

(** The escalation property as the specification words it, for a finite
    event sequence: whenever the first final event is an escalation with
    message [m], the call returns a warning-marked text that mentions
    [m]. *)
Definition escalation_always_reported (evs : list Event) : Prop :=
  forall (pre post : list Event) (e : Event) (m query user_id session_id : string),
    evs = (pre ++ e :: post)%list ->
    Forall (fun x => is_final_response x = false) pre ->
    is_final_response e = true ->
    actions_and_escalate e = true ->
    error_message e = Some m ->
    exists fuel s g,
      call_agent_async fuel query evs user_id session_id
        = Some (Return (Some s), g) /\
      warning_marked s /\ mentions s m.

(** ** Properties of the tools *)

Lemma dict_contains_spec {V} (d : gmap string V) (k : string) :
  dict_contains d k = true <-> is_Some (d !! k).
Proof. unfold dict_contains. rewrite bool_decide_eq_true. reflexivity. Qed.

Lemma mock_weather_db_Some (k : string) (r : gmap string string) :
  mock_weather_db !! k = Some r ->
  k ∈ recognized_keys /\ r !! "status" = Some "success" /\
  exists rep, r !! "report" = Some rep /\ rep <> "".
Proof.
  unfold mock_weather_db, recognized_keys. intros H.
  repeat (apply lookup_insert_Some in H as [[<- <-]|[? H]];
          [ split; [set_solver|]; split; [done|]; eexists; split; [done|done] |]).
  apply lookup_singleton_Some in H as [<- <-].
  split; [set_solver|]. split; [done|]. eexists; split; done.
Qed.

Lemma mock_weather_db_None (k : string) :
  mock_weather_db !! k = None -> k ∉ recognized_keys.
Proof.
  unfold mock_weather_db, recognized_keys. intros H.
  rewrite !lookup_insert_None, lookup_singleton_None in H.
  destruct H as [[[? ?] ?] ?].
  rewrite !elem_of_cons, elem_of_nil. intuition congruence.
Qed.

Lemma error_record_fields (city : string) :
  error_record city !! "status" = Some "error" /\
  exists msg, error_record city !! "error_message" = Some msg /\
              msg <> "" /\ mentions msg city.
Proof.
  unfold error_record. split; [done|].
  eexists. split; [done|]. split; [done|].
  by exists "Xin lỗi, không có thông tin thời tiết cho '", "'.".
Qed.

Section ToolFacts.

Variable lower : string -> string.

Lemma get_weather_hit (city : string) (r : gmap string string) :
  mock_weather_db !! city_normalized lower city = Some r ->
  get_weather lower city = Return r.
Proof.
  intros H. unfold get_weather, dict_contains, dict_getitem.
  rewrite bool_decide_eq_true_2 by (rewrite H; eauto). by rewrite H.
Qed.

Lemma get_weather_miss (city : string) :
  mock_weather_db !! city_normalized lower city = None ->
  get_weather lower city = Return (error_record city).
Proof.
  intros H. unfold get_weather, dict_contains.
  rewrite bool_decide_eq_false_2; [done|]. rewrite H. by intros [? ?].
Qed.

Lemma recognized_lookup (k : string) :
  k ∈ recognized_keys <-> is_Some (mock_weather_db !! k).
Proof.
  split.
  - intros Hk. destruct (mock_weather_db !! k) eqn:E; [eauto|].
    by apply mock_weather_db_None in E.
  - intros [r Hr]. by apply mock_weather_db_Some in Hr as [? _].
Qed.

(** C1: get_weather always returns a record, never raises: a success
    record with a non-empty report when the lower-cased, space-free
    city is one of hanoi, hànội, london, tokyo, and otherwise an error
    record whose non-empty message mentions the city as given. *)
Theorem get_weather_contract (city : string) :
  exists r, get_weather lower city = Return r /\
    ((city_normalized lower city ∈ recognized_keys /\
      r !! "status" = Some "success" /\
      (exists rep, r !! "report" = Some rep /\ rep <> ""))
     \/
     ((city_normalized lower city ∉ recognized_keys) /\
      r !! "status" = Some "error" /\
      (exists msg, r !! "error_message" = Some msg /\
                   msg <> "" /\ mentions msg city))).
Proof.
  destruct (mock_weather_db !! city_normalized lower city) as [r|] eqn:E.
  - exists r. split; [by apply get_weather_hit|]. left.
    by apply mock_weather_db_Some.
  - exists (error_record city). split; [by apply get_weather_miss|]. right.
    split; [by apply mock_weather_db_None|]. apply error_record_fields.
Qed.

(** C9: two cities with the same recognized normal form get the very
    same success record; with the same unrecognized normal form each
    gets the error record built from its own spelling, so the spelling
    shows only in the failure branch. *)
Theorem get_weather_normal_form (c1 c2 : string) :
  city_normalized lower c1 = city_normalized lower c2 ->
  (city_normalized lower c1 ∈ recognized_keys ->
     get_weather lower c1 = get_weather lower c2 /\
     exists r, get_weather lower c1 = Return r /\
               r !! "status" = Some "success") /\
  (city_normalized lower c1 ∉ recognized_keys ->
     get_weather lower c1 = Return (error_record c1) /\
     get_weather lower c2 = Return (error_record c2)).
Proof.
  intros Heq. split.
  - intros [r Hr]%recognized_lookup.
    rewrite (get_weather_hit c1 r Hr).
    rewrite Heq in Hr. rewrite (get_weather_hit c2 r Hr).
    split; [done|]. exists r. split; [done|].
    rewrite <- Heq in Hr. by apply mock_weather_db_Some in Hr as (_ & ? & _).
  - intros Hn.
    assert (mock_weather_db !! city_normalized lower c1 = None) as E.
    { destruct (mock_weather_db !! _) eqn:E; [|done].
      exfalso. apply Hn, recognized_lookup. eauto. }
    split; [by apply get_weather_miss|].
    apply get_weather_miss. by rewrite <- Heq.
Qed.

End ToolFacts.

Lemma get_weather_normal_form_witness :
  city_normalized lower_ascii "Hà Nội" = city_normalized lower_ascii "HàNội" /\
  city_normalized lower_ascii "Hà Nội" ∈ recognized_keys /\
  get_weather lower_ascii "Hà Nội" = get_weather lower_ascii "HàNội".
Proof.
  assert (city_normalized lower_ascii "Hà Nội"
          = city_normalized lower_ascii "HàNội") as E by (vm_compute; reflexivity).
  split; [exact E|].
  assert (city_normalized lower_ascii "Hà Nội" ∈ recognized_keys) as K.
  { replace (city_normalized lower_ascii "Hà Nội") with "hànội"
      by (vm_compute; reflexivity).
    unfold recognized_keys. set_solver. }
  split; [exact K|].
  exact (proj1 (proj1 (get_weather_normal_form lower_ascii "Hà Nội" "HàNội" E) K)).
Defined.

(** The examples of the specification, with the ASCII lower-casing. *)
Example get_weather_tokyo :
  match get_weather lower_ascii "Tokyo" with
  | Return r =>
      r !! "status" = Some "success" /\
      r !! "report" = Some "🌧️ Tokyo: Mưa nhẹ, 18°C" /\
      mentions "🌧️ Tokyo: Mưa nhẹ, 18°C" "Tokyo"
  | Raise _ => False
  end.
Proof.
  vm_compute get_weather. split_and!; [done|done|].
  by exists "🌧️ ", ": Mưa nhẹ, 18°C".
Qed.

Example get_weather_atlantis :
  match get_weather lower_ascii "Atlantis" with
  | Return r =>
      r !! "status" = Some "error" /\
      r !! "error_message"
        = Some "Xin lỗi, không có thông tin thời tiết cho 'Atlantis'."
  | Raise _ => False
  end.
Proof. vm_compute. split; reflexivity. Qed.

Example get_weather_spellings :
  (fun city => match get_weather lower_ascii city with
               | Return r => r !! "report"
               | Raise _ => None
               end) <$> ["Hà Nội"; "hà nội"; "HàNội"; "HANOI"]
  = [ Some "☀️ Hà Nội: Nắng đẹp, 25°C"; Some "☀️ Hà Nội: Nắng đẹp, 25°C";
      Some "☀️ Hà Nội: Nắng đẹp, 25°C"; Some "☀️ Hà Nội: Nắng đẹp, 25°C" ].
Proof. vm_compute. reflexivity. Qed.

(** C10: say_hello greets a non-empty name by name and falls back to the
    generic greeting for a missing or empty name; say_goodbye is one
    fixed text. *)
Theorem say_hello_say_goodbye (c : ascii) (rest : string) :
  say_hello (Some (String c rest)) = "👋 Xin chào, " ++ String c rest ++ "!" /\
  say_hello None = "👋 Xin chào!" /\
  say_hello (Some "") = "👋 Xin chào!" /\
  forall u, say_goodbye u = "👋 Tạm biệt! Chúc bạn một ngày tốt lành! ✨".
Proof. repeat split. Qed.

(** ** Properties of the turn loop *)

Lemma on_final_response_returns (e : Event) (t : option string) :
  exists r, on_final_response e t = Return r.
Proof.
  unfold on_final_response.
  destruct (content_and_parts e) eqn:Hc.
  - unfold content_and_parts in Hc. unfold first_part_text.
    destruct (content e) as [c|]; [|done].
    destruct (parts c) as [[|p ps]|]; try done. simpl. eauto.
  - destruct (actions_and_escalate e); eauto.
Qed.

Lemma on_final_response_escalated (e : Event) (t : option string) :
  content_and_parts e = false ->
  actions_and_escalate e = true ->
  on_final_response e t =
    Return (Some ("⚠️ Agent escalated: "
                  ++ str_or (error_message e) "Không có message.")).
Proof. unfold on_final_response. by intros -> ->. Qed.

Lemma on_final_response_text (e : Event) (t : option string) :
  content_and_parts e = true ->
  exists c p ps, content e = Some c /\ parts c = Some (p :: ps) /\
                 on_final_response e t = Return (text p).
Proof.
  unfold on_final_response, content_and_parts, first_part_text.
  destruct (content e) as [c|] eqn:Ec; [|done].
  destruct (parts c) as [[|p ps]|] eqn:Ep; try done.
  intros _. exists c, p, ps. repeat split; done.
Qed.

Section Loop.

Context {R G : Type} `{RunnerLike R G}.

Lemma after_succ (n : nat) (g : G) :
  after (S n) g = after n (snd (anext g)).
Proof. done. Qed.

Lemma pull_0 (g : G) : pull 0 g = fst (anext g).
Proof. done. Qed.

Lemma pull_S (n : nat) (g : G) :
  pull (S n) g = pull n (snd (anext g)).
Proof. done. Qed.

Lemma async_for_S (fuel : nat) (g : G) (t : option string) :
  async_for (S fuel) g t =
    match anext g with
    | (None, g') => Some (Return t, g')
    | (Some event, g') =>
        if is_final_response event then Some (on_final_response event t, g')
        else async_for fuel g' t
    end.
Proof. done. Qed.

Lemma intermediate_shift (k : nat) (g : G) :
  (forall i, i < S k ->
     exists e', pull i g = Some e' /\ is_final_response e' = false) ->
  (exists e0, fst (anext g) = Some e0 /\ is_final_response e0 = false) /\
  (forall i, i < k ->
     exists e', pull i (snd (anext g)) = Some e' /\ is_final_response e' = false).
Proof.
  intros Hpre. split.
  - destruct (Hpre 0) as (e0 & H0 & Hn0); [lia|]. eauto.
  - intros i Hi. destruct (Hpre (S i)) as (e' & H1 & H2); [lia|]. eauto.
Qed.

(** The loop stops at the first final event and applies the body to it. *)
Lemma async_for_first_final (k : nat) :
  forall (g : G) (e : Event) (t : option string) (fuel : nat),
    (forall i, i < k ->
       exists e', pull i g = Some e' /\ is_final_response e' = false) ->
    pull k g = Some e ->
    is_final_response e = true ->
    k < fuel ->
    async_for fuel g t = Some (on_final_response e t, after (S k) g).
Proof.
  induction k as [|k IH]; intros g e t fuel Hpre Hk He Hfuel;
    (destruct fuel as [|fuel]; [lia|]); rewrite async_for_S, after_succ.
  - rewrite pull_0 in Hk.
    destruct (anext g) as [[e0|] g']; simpl in Hk; [|done].
    injection Hk as ->. by rewrite He.
  - apply intermediate_shift in Hpre as [(e0 & H0 & Hn0) Hpre].
    rewrite pull_S in Hk.
    destruct (anext g) as [[e1|] g']; simpl in H0, Hk, Hpre |- *; [|done].
    injection H0 as ->. rewrite Hn0.
    apply IH; [done|done|done|lia].
Qed.

(** A sequence that ends with no final event leaves the text as it was. *)
Lemma async_for_exhausted (k : nat) :
  forall (g : G) (t : option string) (fuel : nat),
    (forall i, i < k ->
       exists e', pull i g = Some e' /\ is_final_response e' = false) ->
    pull k g = None ->
    k < fuel ->
    async_for fuel g t = Some (Return t, after (S k) g).
Proof.
  induction k as [|k IH]; intros g t fuel Hpre Hk Hfuel;
    (destruct fuel as [|fuel]; [lia|]); rewrite async_for_S, after_succ.
  - rewrite pull_0 in Hk.
    by destruct (anext g) as [[e0|] g']; simpl in Hk.
  - apply intermediate_shift in Hpre as [(e0 & H0 & Hn0) Hpre].
    rewrite pull_S in Hk.
    destruct (anext g) as [[e1|] g']; simpl in H0, Hk, Hpre |- *; [|done].
    injection H0 as ->. rewrite Hn0.
    apply IH; [done|done|lia].
Qed.

End Loop.

(** *** Facts on texts *)

Lemma string_length_app (a b : string) :
  String.length (a ++ b) = String.length a + String.length b.
Proof. induction a as [|c a IH]; simpl; [done|by rewrite IH]. Qed.

Lemma mentions_length (s sub : string) :
  mentions s sub -> String.length sub <= String.length s.
Proof.
  intros (pre & post & ->). rewrite !string_length_app. lia.
Qed.

Lemma string_app_empty (a : string) : a ++ "" = a.
Proof.
  induction a as [|c a IH]; [done|].
  change (String c (a ++ "") = String c a). by rewrite IH.
Qed.

Lemma mentions_suffix (pre sub : string) : mentions (pre ++ sub) sub.
Proof. exists pre, "". by rewrite string_app_empty. Qed.

Lemma str_or_nonempty (c : ascii) (m d : string) :
  str_or (Some (String c m)) d = String c m.
Proof. done. Qed.

Lemma str_or_none (d : string) : str_or None d = d.
Proof. done. Qed.

Lemma str_or_empty (d : string) : str_or (Some "") d = d.
Proof. done. Qed.

(** *** The call as a whole *)

Section Call.

Context {R G : Type} `{RunnerLike R G}.

Lemma call_agent_async_first_final (query : string) (runner : R)
    (user_id session_id : string) (k fuel : nat) (e : Event) :
  let g := run_async runner user_id session_id (new_message query) in
  (forall i, i < k ->
     exists e', pull i g = Some e' /\ is_final_response e' = false) ->
  pull k g = Some e ->
  is_final_response e = true ->
  k < fuel ->
  call_agent_async fuel query runner user_id session_id
    = Some (on_final_response e (Some no_response), after (S k) g).
Proof. intros g Hpre Hk He Hf. by apply async_for_first_final. Qed.

Lemma call_agent_async_exhausted (query : string) (runner : R)
    (user_id session_id : string) (k fuel : nat) :
  let g := run_async runner user_id session_id (new_message query) in
  (forall i, i < k ->
     exists e', pull i g = Some e' /\ is_final_response e' = false) ->
  pull k g = None ->
  k < fuel ->
  call_agent_async fuel query runner user_id session_id
    = Some (Return (Some no_response), after (S k) g).
Proof. intros g Hpre Hk Hf. by apply async_for_exhausted. Qed.

(** C2, amended: when the first final event has no content parts and
    is an escalation, the call returns the warning text made of the
    fixed prefix and the error message, or of the prefix and the
    fallback phrase when the message is missing or empty. *)
Theorem escalation_without_content_reported (query : string) (runner : R)
    (user_id session_id : string) (k fuel : nat) (e : Event) :
  let g := run_async runner user_id session_id (new_message query) in
  (forall i, i < k ->
     exists e', pull i g = Some e' /\ is_final_response e' = false) ->
  pull k g = Some e ->
  is_final_response e = true ->
  content_and_parts e = false ->
  actions_and_escalate e = true ->
  k < fuel ->
  exists s,
    call_agent_async fuel query runner user_id session_id
      = Some (Return (Some s), after (S k) g) /\
    warning_marked s /\
    (forall c m, error_message e = Some (String c m) ->
                 s = "⚠️ Agent escalated: " ++ String c m /\
                 mentions s (String c m)) /\
    (error_message e = None \/ error_message e = Some "" ->
     s = "⚠️ Agent escalated: Không có message.").
Proof.
  intros g Hpre Hk He Hc Ha Hf.
  exists ("⚠️ Agent escalated: "
          ++ str_or (error_message e) "Không có message.").
  split.
  - rewrite (call_agent_async_first_final query runner user_id session_id
               k fuel e Hpre Hk He Hf).
    by rewrite (on_final_response_escalated e _ Hc Ha).
  - split; [by exists (" Agent escalated: "
                       ++ str_or (error_message e) "Không có message.")|].
    split.
    + intros c m ->. rewrite str_or_nonempty. split; [done|].
      apply mentions_suffix.
    + by intros [-> | ->].
Qed.

(** C7: the call asks for events up to the first final one and no
    further, and its result is the one it gives on that event alone,
    whatever came before it. *)
Theorem stops_at_first_final (query : string) (runner : R)
    (user_id session_id : string) (k fuel : nat) (e : Event) :
  let g := run_async runner user_id session_id (new_message query) in
  (forall i, i < k ->
     exists e', pull i g = Some e' /\ is_final_response e' = false) ->
  pull k g = Some e ->
  is_final_response e = true ->
  k < fuel ->
  exists r,
    call_agent_async fuel query runner user_id session_id
      = Some (r, after (S k) g) /\
    call_agent_async 1 query [e] user_id session_id = Some (r, []).
Proof.
  intros g Hpre Hk He Hf.
  exists (on_final_response e (Some no_response)). split.
  - by apply call_agent_async_first_final.
  - unfold call_agent_async. simpl. by rewrite He.
Qed.

End Call.

(** On a finite sequence the requests are its elements in order, and
    the state is what is left of it. *)
Lemma after_list (n : nat) (evs : list Event) : after n evs = drop n evs.
Proof.
  revert evs. induction n as [|n IH]; intros [|e evs]; try done.
  - rewrite after_succ. simpl. rewrite IH. by destruct n.
  - rewrite after_succ. simpl. by rewrite IH.
Qed.

Lemma pull_list (n : nat) (evs : list Event) : pull n evs = evs !! n.
Proof.
  unfold pull. rewrite after_list.
  rewrite <- (Nat.add_0_r n) at 2. rewrite <- lookup_drop.
  by destruct (drop n evs).
Qed.

Lemma intermediate_prefix (pre rest : list Event) :
  Forall (fun x => is_final_response x = false) pre ->
  forall i, i < length pre ->
    exists e', pull i (pre ++ rest)%list = Some e' /\ is_final_response e' = false.
Proof.
  intros Hpre i Hi. rewrite pull_list.
  destruct (lookup_lt_is_Some_2 pre i Hi) as [e' He'].
  exists e'. split; [by rewrite lookup_app_l_Some with (x := e')|].
  rewrite Forall_lookup in Hpre. by apply (Hpre i).
Qed.

Lemma escalation_without_content_reported_witness :
  exists s,
    call_agent_async 2 "Xin chào!"
      [ev_tool_call; ev_escalated (Some "internal timeout")]
      default_user_id default_session_id
      = Some (Return (Some s), []) /\
    s = "⚠️ Agent escalated: internal timeout".
Proof.
  destruct (escalation_without_content_reported "Xin chào!"
              [ev_tool_call; ev_escalated (Some "internal timeout")]
              default_user_id default_session_id 1 2
              (ev_escalated (Some "internal timeout")))
    as (s & Hs & _ & Hm & _).
  - intros i Hi. apply Nat.lt_1_r in Hi as ->. by exists ev_tool_call.
  - reflexivity.
  - reflexivity.
  - reflexivity.
  - reflexivity.
  - apply Nat.lt_succ_diag_r.
  - exists s. split; [exact Hs|]. by destruct (Hm _ _ eq_refl).
Defined.

Lemma stops_at_first_final_witness :
  exists r,
    call_agent_async 3 "Xin chào!"
      [ev_tool_call; ev_tool_call; ev_text "Hello!"; ev_text "later"]
      default_user_id default_session_id
      = Some (r, [ev_text "later"]) /\
    call_agent_async 1 "Xin chào!" [ev_text "Hello!"]
      default_user_id default_session_id = Some (r, []).
Proof.
  destruct (stops_at_first_final "Xin chào!"
              [ev_tool_call; ev_tool_call; ev_text "Hello!"; ev_text "later"]
              default_user_id default_session_id 2 3 (ev_text "Hello!"))
    as (r & H1 & H2).
  - intros [|[|i]] Hi; [by exists ev_tool_call|by exists ev_tool_call|].
    exfalso. apply Nat.succ_lt_mono, Nat.succ_lt_mono in Hi.
    by apply Nat.nlt_0_r in Hi.
  - reflexivity.
  - reflexivity.
  - apply Nat.lt_succ_diag_r.
  - exists r. split; [exact H1|exact H2].
Defined.

(** The same on an endless sequence whose third event is the first
    final one: three requests are made. *)
Example stops_on_endless_sequence :
  call_agent_async 5 "Xin chào!"
    (fun n => if (n <? 2)%nat then ev_tool_call else ev_text "Hello!")
    default_user_id default_session_id
  = Some (Return (Some "Hello!"),
          (3, fun n => if (n <? 2)%nat then ev_tool_call else ev_text "Hello!")).
Proof. reflexivity. Qed.

(** C2, as stated, fails: an escalation that also carries content parts
    is answered with the text of its first part, and the error message
    is dropped. *)
Lemma escalation_with_content_not_reported :
  ~ escalation_always_reported [ev_escalated_with_text].
Proof.
  intros Hc.
  destruct (Hc [] [] ev_escalated_with_text "internal timeout"
               "Xin chào!" default_user_id default_session_id)
    as (fuel & s & g & Hcall & _ & Hm); try done.
  destruct fuel as [|fuel]; [done|].
  injection Hcall as <- _.
  apply mentions_length in Hm. simpl in Hm. lia.
Qed.

(** C5: a first final event whose first content part has no text makes
    the call return [None], not a text. *)
Theorem final_event_without_text_returns_none
    (fuel : nat) (query user_id session_id : string) :
  call_agent_async (S fuel) query [ev_final_without_text] user_id session_id
  = Some (Return None, []).
Proof. reflexivity. Qed.

(** ** Properties of the session store and of the runner's generator *)

Lemma extend_nil (s : Session) : extend s [] = s.
Proof. destruct s. unfold extend. simpl. by rewrite app_nil_r. Qed.

Lemma append_message_extend (m : Message) (s : Session) (ms : list Message) :
  append_message m (extend s ms) = extend s (ms ++ [m]).
Proof. unfold append_message, extend. simpl. by rewrite app_assoc. Qed.

Lemma extend_append_message (m : Message) (s : Session) (ms : list Message) :
  extend (append_message m s) ms = extend s (m :: ms).
Proof. unfold append_message, extend. simpl. by rewrite <- app_assoc. Qed.

Lemma append_message_single (m : Message) (s : Session) :
  append_message m s = extend s [m].
Proof. done. Qed.

Lemma agent_message_intermediate (e : Event) :
  is_final_response e = false -> agent_message e = None.
Proof. unfold agent_message. by intros ->. Qed.

Lemma agent_message_role (e : Event) (m : Message) :
  agent_message e = Some m -> msg_role m = RoleAgent.
Proof.
  unfold agent_message.
  destruct (is_final_response e && content_and_parts e); [|done].
  destruct (first_part_text e) as [[t|]|]; try done.
  by intros [= <-].
Qed.

Lemma runner_start_idem (st : RunState) :
  runner_start (runner_start st) = runner_start st.
Proof.
  unfold runner_start at 2 3.
  destruct (rs_pending st) eqn:E.
  - unfold runner_start. by rewrite E.
  - by destruct (rs_store st !! rs_key st).
Qed.

Lemma runner_anext_start (st : RunState) :
  runner_anext (runner_start st) = runner_anext st.
Proof. unfold runner_anext. by rewrite runner_start_idem. Qed.

Lemma async_for_start (fuel : nat) (st : RunState) (t : option string) :
  async_for fuel (runner_start st) t = async_for fuel st t.
Proof.
  destruct fuel as [|fuel]; [done|]. rewrite !async_for_S.
  change (@anext Runner RunState adk_runner) with runner_anext.
  by rewrite runner_anext_start.
Qed.

(** Once started, the generator adds at most the agent message of the
    final event at which the loop stops. *)
Lemma async_for_started (evs : list Event) :
  forall (r : Runner) (key : SessionKey) (msg : Content)
         (store : gmap SessionKey Session) (sess : Session)
         (t : option string) (fuel : nat),
    store !! key = Some sess ->
    length evs < fuel ->
    exists res st ams,
      async_for fuel
        {| rs_runner := r; rs_key := key; rs_new_message := msg;
           rs_store := store; rs_pending := Some evs |} t
        = Some (Return res, st) /\
      rs_store st !! key = Some (extend sess ams) /\
      length ams <= 1 /\
      Forall (fun m => msg_role m = RoleAgent) ams /\
      (forall k', k' ≠ key -> rs_store st !! k' = store !! k') /\
      (Forall (fun x => is_final_response x = false) evs ->
       ams = [] /\ res = t).
Proof.
  induction evs as [|e rest IH]; intros r key msg store sess t fuel Hs Hf;
    (destruct fuel as [|fuel]; [simpl in Hf; lia|]); rewrite async_for_S;
    change (@anext Runner RunState adk_runner) with runner_anext;
    unfold runner_anext, runner_start; simpl.
  - eexists t, _, []. split; [done|]. simpl. rewrite extend_nil.
    split_and!; auto.
  - destruct (is_final_response e) eqn:He.
    + destruct (on_final_response_returns e t) as [res ->].
      assert (Forall (fun x => is_final_response x = false) (e :: rest) ->
              False) as Hno.
      { intros Hall. apply Forall_cons in Hall as [Hn _]. congruence. }
      destruct (agent_message e) as [m|] eqn:Hm.
      * eexists res, _, [m]. split; [done|]. simpl. split_and!.
        -- by rewrite lookup_alter_eq, Hs.
        -- done.
        -- constructor; [|done]. by apply (agent_message_role e).
        -- intros k' Hk. by rewrite lookup_alter_ne.
        -- intros Hall. by destruct (Hno Hall).
      * eexists res, _, []. split; [done|]. simpl. rewrite extend_nil.
        split_and!; auto. intros Hall. by destruct (Hno Hall).
    + rewrite (agent_message_intermediate e He).
      destruct (IH r key msg store sess t fuel Hs) as
        (res & st & ams & Hrun & Hk & Hlen & Hrole & Hoth & Hnf);
        [simpl in Hf; lia|].
      exists res, st, ams. split_and!; auto.
      intros Hall. apply Forall_cons in Hall as [_ Hall]. by apply Hnf.
Qed.

Lemma create_session_and_runner_store
    (engine : Agent -> Session -> Content -> list Event)
    (agent : Agent) (app_name user_id session_id : string) :
  let fresh := {| applicationName := app_name; userId := user_id;
                  sessionId := session_id; history := [] |} in
  create_session_and_runner engine agent app_name user_id session_id
  = ({[ (app_name, user_id, session_id) := fresh ]},
     {| agent := agent; app_name := app_name;
        session_service := {[ (app_name, user_id, session_id) := fresh ]};
        engine := engine |},
     user_id, session_id).
Proof.
  unfold create_session_and_runner, create_session.
  rewrite lookup_empty. by rewrite insert_empty.
Qed.

Lemma demo_runner_session (engine : Agent -> Session -> Content -> list Event) :
  session_service (demo_runner engine) !! demo_key = Some fresh_session.
Proof.
  unfold demo_runner. rewrite create_session_and_runner_store. simpl.
  apply lookup_singleton_eq.
Qed.

(** One turn on a session of the store: the user message goes in first,
    then at most the agent message of the final event. *)
Lemma call_agent_async_history (runner : Runner)
    (query user_id session_id : string) (sess : Session) (fuel : nat) :
  let key := (app_name runner, user_id, session_id) in
  session_service runner !! key = Some sess ->
  length (engine runner (agent runner) sess (new_message query)) < fuel ->
  exists res st ams,
    call_agent_async fuel query runner user_id session_id
      = Some (Return res, st) /\
    rs_store st !! key
      = Some (extend sess ({| msg_role := RoleUser; msg_text := query |} :: ams)) /\
    length ams <= 1 /\
    Forall (fun m => msg_role m = RoleAgent) ams /\
    (forall k', k' ≠ key -> rs_store st !! k' = session_service runner !! k') /\
    (Forall (fun x => is_final_response x = false)
            (engine runner (agent runner) sess (new_message query)) ->
     ams = [] /\ res = Some no_response).
Proof.
  intros key Hs Hf. unfold call_agent_async.
  rewrite <- async_for_start. unfold runner_start. simpl.
  subst key. rewrite Hs.
  set (key := (app_name runner, user_id, session_id)) in *.
  set (u := {| msg_role := RoleUser; msg_text := query |}).
  destruct (async_for_started
              (engine runner (agent runner) sess (new_message query))
              runner key (new_message query)
              (<[key := append_message u sess]> (session_service runner))
              (append_message u sess) (Some no_response) fuel)
    as (res & st & ams & Hrun & Hk & Hlen & Hrole & Hoth & Hnf);
    [apply lookup_insert_eq|done|].
  exists res, st, ams. split_and!; auto.
  - by rewrite Hk, extend_append_message.
  - intros k' Hne. rewrite Hoth by done. by rewrite lookup_insert_ne.
Qed.

(** C6: whatever the number of intermediate events, a call leaves the
    session with its former history followed by the user message and
    then by at most one agent message; the other sessions of the store
    are as before. *)
Theorem turn_appends_one_user_message (runner : Runner)
    (query user_id session_id : string) (sess : Session) (fuel : nat) :
  let key := (app_name runner, user_id, session_id) in
  session_service runner !! key = Some sess ->
  length (engine runner (agent runner) sess (new_message query)) < fuel ->
  exists res st ams,
    call_agent_async fuel query runner user_id session_id
      = Some (Return res, st) /\
    (exists sess', rs_store st !! key = Some sess' /\
       history sess'
       = (history sess ++ {| msg_role := RoleUser; msg_text := query |} :: ams)%list) /\
    length ams <= 1 /\
    Forall (fun m => msg_role m = RoleAgent) ams /\
    (forall k', k' ≠ key -> rs_store st !! k' = session_service runner !! k').
Proof.
  intros key Hs Hf.
  destruct (call_agent_async_history runner query user_id session_id sess fuel
              Hs Hf) as (res & st & ams & Hrun & Hk & Hlen & Hrole & Hoth & _).
  exists res, st, ams. split_and!; auto.
  eexists. split; [exact Hk|done].
Qed.

Lemma turn_appends_one_user_message_witness :
  exists res st ams,
    call_agent_async 4 "hello" (demo_runner demo_engine)
      default_user_id default_session_id = Some (Return res, st) /\
    (exists sess', rs_store st !! demo_key = Some sess' /\
       history sess' = {| msg_role := RoleUser; msg_text := "hello" |} :: ams) /\
    length ams <= 1.
Proof.
  destruct (turn_appends_one_user_message (demo_runner demo_engine) "hello"
              default_user_id default_session_id fresh_session 4)
    as (res & st & ams & Hrun & Hh & Hlen & _).
  - apply demo_runner_session.
  - apply Nat.lt_succ_diag_r.
  - exists res, st, ams. split; [exact Hrun|]. split; [exact Hh|exact Hlen].
Defined.

(** The end-to-end scenario: two tool calls, then the answer. *)
Example hello_turn :
  match call_agent_async 4 "hello" (demo_runner demo_engine)
          default_user_id default_session_id with
  | Some (r, st) =>
      r = Return (Some "Hello!") /\
      history <$> rs_store st !! demo_key
        = Some [ {| msg_role := RoleUser; msg_text := "hello" |};
                 {| msg_role := RoleAgent; msg_text := "Hello!" |} ]
  | None => False
  end.
Proof. vm_compute. split; reflexivity. Qed.

(** C3: a sequence that ends without a final event makes the call
    return the fixed text, with no exception; and on the runner of the
    session store such a turn, the empty one among them, adds the user
    message to the history and no agent message. *)
Theorem no_final_event_gives_fallback :
  (forall (R G : Type) (H : RunnerLike R G) (query : string) (runner : R)
          (user_id session_id : string) (k fuel : nat),
     let g := run_async runner user_id session_id (new_message query) in
     (forall i, i < k ->
        exists e', pull i g = Some e' /\ is_final_response e' = false) ->
     pull k g = None ->
     k < fuel ->
     call_agent_async fuel query runner user_id session_id
       = Some (Return (Some no_response), after (S k) g)) /\
  (forall (runner : Runner) (query user_id session_id : string)
          (sess : Session) (fuel : nat),
     let key := (app_name runner, user_id, session_id) in
     let evs := engine runner (agent runner) sess (new_message query) in
     session_service runner !! key = Some sess ->
     evs = [] \/ Forall (fun x => is_final_response x = false) evs ->
     length evs < fuel ->
     exists st,
       call_agent_async fuel query runner user_id session_id
         = Some (Return (Some no_response), st) /\
       exists sess', rs_store st !! key = Some sess' /\
         history sess'
         = (history sess ++ [ {| msg_role := RoleUser; msg_text := query |} ])%list).
Proof.
  split.
  - intros R G H query runner user_id session_id k fuel g Hpre Hk Hf.
    by apply call_agent_async_exhausted.
  - intros runner query user_id session_id sess fuel key evs Hs Hev Hf.
    assert (Forall (fun x => is_final_response x = false) evs) as Hall.
    { destruct Hev as [-> | Hall]; [constructor|done]. }
    destruct (call_agent_async_history runner query user_id session_id sess
                fuel Hs Hf)
      as (res & st & ams & Hrun & Hk & _ & _ & _ & Hnf).
    destruct (Hnf Hall) as [-> ->].
    exists st. split; [exact Hrun|]. eexists. split; [exact Hk|done].
Qed.

Lemma no_final_event_gives_fallback_witness :
  call_agent_async 3 "hello" [ev_tool_call; ev_tool_call]
    default_user_id default_session_id
    = Some (Return (Some no_response), []) /\
  exists st,
    call_agent_async 1 "hello" (demo_runner silent_engine)
      default_user_id default_session_id
      = Some (Return (Some no_response), st) /\
    exists sess', rs_store st !! demo_key = Some sess' /\
      history sess' = [ {| msg_role := RoleUser; msg_text := "hello" |} ].
Proof.
  split.
  - apply (proj1 no_final_event_gives_fallback (list Event) (list Event)
             list_runner "hello" [ev_tool_call; ev_tool_call]
             default_user_id default_session_id 2 3).
    + intros [|[|i]] Hi; [by exists ev_tool_call|by exists ev_tool_call|].
      exfalso. apply Nat.succ_lt_mono, Nat.succ_lt_mono in Hi.
      by apply Nat.nlt_0_r in Hi.
    + reflexivity.
    + apply Nat.lt_succ_diag_r.
  - apply (proj2 no_final_event_gives_fallback (demo_runner silent_engine)
             "hello" default_user_id default_session_id fresh_session 1).
    + apply demo_runner_session.
    + by left.
    + apply Nat.lt_succ_diag_r.
Defined.

(** C8: creating a session for an identity that the store already holds
    gives back the stored session, whatever its history, and leaves the
    store as it is; so a second creation changes nothing, and no other
    identity is touched by either. *)
Theorem create_session_idempotent (store : gmap SessionKey Session)
    (app_name user_id session_id : string) :
  let key := (app_name, user_id, session_id) in
  exists s1 store1,
    create_session store app_name user_id session_id = (s1, store1) /\
    store1 !! key = Some s1 /\
    create_session store1 app_name user_id session_id = (s1, store1) /\
    (forall sess, store !! key = Some sess -> s1 = sess /\ store1 = store) /\
    (forall k', k' ≠ key -> store1 !! k' = store !! k').
Proof.
  intros key. unfold create_session. fold key.
  destruct (store !! key) as [sess|] eqn:E.
  - exists sess, store. rewrite E. split_and!; auto.
    intros sess' [= <-]. done.
  - eexists _, _. split; [done|]. rewrite lookup_insert_eq.
    split_and!; auto; [done|]. intros k' Hne. by rewrite lookup_insert_ne.
Qed.

(** A session that has been through a turn keeps its two messages when
    it is created again on the same store. *)
Example create_again_after_turn :
  match call_agent_async 4 "hello" (demo_runner demo_engine)
          default_user_id default_session_id with
  | Some (_, st) =>
      history (create_session (rs_store st) default_app_name
                 default_user_id default_session_id).1
      = [ {| msg_role := RoleUser; msg_text := "hello" |};
          {| msg_role := RoleAgent; msg_text := "Hello!" |} ]
  | None => False
  end.
Proof. vm_compute. reflexivity. Qed.

(** ** Properties of the routing *)

(** C4: an utterance that matches the greeting child's responsibility
    is handed to greeting_agent, and one that matches the farewell
    child's and not the greeting child's to farewell_agent, whether or
    not the root's own responsibility matches and get_weather applies
    as well: the children are looked at before the root's own tool, and
    get_weather is not among the tools of the turn. *)
Theorem delegation_before_own_tool (matches : string -> string -> bool)
    (applies : string -> ToolFn -> bool) (utterance : string) :
  (matches utterance (description greeting_agent) = true ->
     resolve matches applies root_agent utterance = Delegate greeting_agent /\
     tool_get_weather ∉
       tools_in_turn (resolve matches applies root_agent utterance)) /\
  (matches utterance (description greeting_agent) = false ->
   matches utterance (description farewell_agent) = true ->
     resolve matches applies root_agent utterance = Delegate farewell_agent /\
     tool_get_weather ∉
       tools_in_turn (resolve matches applies root_agent utterance)).
Proof.
  split.
  - intros Hg.
    assert (resolve matches applies root_agent utterance
            = Delegate greeting_agent) as ->.
    { unfold resolve.
      change (sub_agents root_agent) with [greeting_agent; farewell_agent].
      cbn [find]. by rewrite Hg. }
    split; [done|]. intros Hin. by apply list_elem_of_singleton in Hin.
  - intros Hg Hf.
    assert (resolve matches applies root_agent utterance
            = Delegate farewell_agent) as ->.
    { unfold resolve.
      change (sub_agents root_agent) with [greeting_agent; farewell_agent].
      cbn [find]. by rewrite Hg, Hf. }
    split; [done|]. intros Hin. by apply list_elem_of_singleton in Hin.
Qed.

(** In both examples the root's own responsibility matches and
    get_weather applies too; the child still gets the turn. *)
Lemma delegation_before_own_tool_witness :
  (eager_matches "Xin chào!" (description root_agent) = true /\
   eager_applies "Xin chào!" tool_get_weather = true /\
   resolve eager_matches eager_applies root_agent "Xin chào!"
     = Delegate greeting_agent) /\
  (all_but_greeting "Cảm ơn, tạm biệt!" (description root_agent) = true /\
   eager_applies "Cảm ơn, tạm biệt!" tool_get_weather = true /\
   resolve all_but_greeting eager_applies root_agent "Cảm ơn, tạm biệt!"
     = Delegate farewell_agent).
Proof.
  split; (split; [reflexivity|]); (split; [reflexivity|]).
  - exact (proj1 (proj1 (delegation_before_own_tool eager_matches eager_applies
                           "Xin chào!") eq_refl)).
  - exact (proj1 (proj2 (delegation_before_own_tool all_but_greeting
                           eager_applies "Cảm ơn, tạm biệt!") eq_refl eq_refl)).
Defined.

(** The own tool is reached only when no child matches: a question that
    only the root's description matches goes to get_weather, and one
    that nothing matches is declined. *)
Example weather_query_own_tool :
  resolve only_root eager_applies root_agent "Còn London thì sao?"
  = InvokeTool tool_get_weather.
Proof. reflexivity. Qed.

Example unmatched_query_declined :
  resolve (fun _ _ => false) eager_applies root_agent "Còn London thì sao?"
  = Decline.
Proof. reflexivity. Qed.


(** * Further properties *)

(** ** The tools *)

Lemma string_app_inv_head (p a b : string) : p ++ a = p ++ b -> a = b.
Proof.
  induction p as [|c p IH]; [done|].
  change (String c (p ++ a) = String c (p ++ b) -> a = b).
  intros [= H]. by apply IH.
Qed.

Lemma string_app_inv_tail (a b t : string) : a ++ t = b ++ t -> a = b.
Proof.
  revert b. induction a as [|c a IH]; intros [|d b] H.
  - done.
  - exfalso. apply (f_equal String.length) in H.
    rewrite !string_length_app in H. simpl in H. lia.
  - exfalso. apply (f_equal String.length) in H.
    rewrite !string_length_app in H. simpl in H. lia.
  - change (String c (a ++ t) = String d (b ++ t)) in H.
    injection H as -> H. f_equal. by apply IH.
Qed.

Lemma Return_inj {A} (a b : A) : Return a = Return b -> a = b.
Proof. by intros [= ->]. Qed.

Lemma error_record_inj (c1 c2 : string) :
  error_record c1 = error_record c2 -> c1 = c2.
Proof.
  intros H. apply (f_equal (fun r => r !! "error_message")) in H.
  unfold error_record in H.
  rewrite !lookup_insert_ne, !lookup_singleton_eq in H by done.
  injection H as H.
  apply string_app_inv_head in H. by apply string_app_inv_tail in H.
Qed.

Lemma mock_weather_db_dom (k : string) (r : gmap string string) :
  mock_weather_db !! k = Some r ->
  dom r = ({[ "status"; "report" ]} : gset string).
Proof.
  unfold mock_weather_db. intros H.
  repeat (apply lookup_insert_Some in H as [[_ <-]|[_ H]];
          [by rewrite dom_insert_L, dom_singleton_L|]).
  apply lookup_singleton_Some in H as [_ <-].
  by rewrite dom_insert_L, dom_singleton_L.
Qed.

Lemma unrecognized_lookup (lower : string -> string) (city : string) :
  city_normalized lower city ∉ recognized_keys ->
  mock_weather_db !! city_normalized lower city = None.
Proof.
  intros Hn. destruct (mock_weather_db !! _) eqn:E; [|done].
  exfalso. apply Hn, recognized_lookup. eauto.
Qed.

(** X1: the record that get_weather returns has exactly two keys:
    status and report when the status is success, status and
    error_message when it is error. *)
Theorem get_weather_record_shape (lower : string -> string) (city : string) :
  exists r, get_weather lower city = Return r /\
    ((r !! "status" = Some "success" /\
      dom r = ({[ "status"; "report" ]} : gset string)) \/
     (r !! "status" = Some "error" /\
      dom r = ({[ "status"; "error_message" ]} : gset string))).
Proof.
  destruct (mock_weather_db !! city_normalized lower city) as [r|] eqn:E.
  - exists r. split; [by apply get_weather_hit|]. left. split.
    + by apply mock_weather_db_Some in E as (_ & ? & _).
    + by apply (mock_weather_db_dom _ _ E).
  - exists (error_record city). split; [by apply get_weather_miss|].
    right. split; [done|].
    unfold error_record. by rewrite dom_insert_L, dom_singleton_L.
Qed.

(** X2: two different spellings never get the same answer when the
    first is not recognized, even if they have the same normal form:
    the error message tells the spelling. *)
Theorem error_answer_tells_spelling (lower : string -> string) (c1 c2 : string) :
  c1 <> c2 ->
  city_normalized lower c1 ∉ recognized_keys ->
  get_weather lower c1 <> get_weather lower c2.
Proof.
  intros Hne Hn Heq.
  rewrite (get_weather_miss lower c1 (unrecognized_lookup lower c1 Hn)) in Heq.
  destruct (mock_weather_db !! city_normalized lower c2) as [r|] eqn:E.
  - rewrite (get_weather_hit lower c2 r E) in Heq.
    apply Return_inj in Heq as <-.
    by apply mock_weather_db_Some in E as (_ & ? & _).
  - rewrite (get_weather_miss lower c2 E) in Heq.
    by apply Return_inj, error_record_inj in Heq.
Qed.

Lemma error_answer_tells_spelling_witness :
  city_normalized lower_ascii "Atlantis" = city_normalized lower_ascii "atlan tis" /\
  get_weather lower_ascii "Atlantis" <> get_weather lower_ascii "atlan tis".
Proof.
  split; [reflexivity|].
  apply (error_answer_tells_spelling lower_ascii "Atlantis" "atlan tis").
  - discriminate.
  - change (city_normalized lower_ascii "Atlantis") with "atlantis".
    unfold recognized_keys. rewrite !elem_of_cons, elem_of_nil.
    intros [H|[H|[H|[H|[]]]]]; discriminate H.
Defined.

(** X3: say_hello gives the generic greeting only when the name is
    missing or empty. *)
Theorem generic_greeting_only_without_name (name : option string) :
  say_hello name = "👋 Xin chào!" <-> name = None \/ name = Some "".
Proof.
  split.
  - destruct name as [[|c rest]|]; [by right| |by left].
    intros H. exfalso. vm_compute in H. discriminate H.
  - by intros [-> | ->].
Qed.

(** X4: two different names never get the same greeting. *)
Theorem say_hello_tells_names_apart (a b : string) :
  a <> b -> say_hello (Some a) <> say_hello (Some b).
Proof.
  intros Hne Heq. apply Hne.
  destruct a as [|c a], b as [|d b]; [done| | |].
  - exfalso. vm_compute in Heq. discriminate Heq.
  - exfalso. vm_compute in Heq. discriminate Heq.
  - unfold say_hello in Heq. simpl str_truthy in Heq. simpl default in Heq.
    cbv iota in Heq.
    apply string_app_inv_head in Heq. by apply string_app_inv_tail in Heq.
Qed.

Lemma say_hello_tells_names_apart_witness :
  say_hello (Some "An") <> say_hello (Some "Anh").
Proof.
  apply say_hello_tells_names_apart. discriminate.
Defined.

(** X5: every entry of the mock database can be asked for: with the
    lower-casing of the ASCII letters, which is what str.lower does on
    the four keys, the key itself as a city gets the entry. *)
Theorem every_entry_reachable (k : string) (r : gmap string string) :
  mock_weather_db !! k = Some r ->
  get_weather lower_ascii k = Return r.
Proof.
  intros H. apply get_weather_hit.
  assert (city_normalized lower_ascii k = k) as ->; [|done].
  apply mock_weather_db_Some in H as [Hk _].
  unfold recognized_keys in Hk. rewrite !elem_of_cons, elem_of_nil in Hk.
  destruct Hk as [->|[->|[->|[->|[]]]]]; reflexivity.
Qed.

Lemma every_entry_reachable_witness :
  exists r, get_weather lower_ascii "hànội" = Return r /\
            r !! "report" = Some "☀️ Hà Nội: Nắng đẹp, 25°C".
Proof.
  eexists. split.
  - apply every_entry_reachable. unfold mock_weather_db.
    rewrite lookup_insert_ne by discriminate. apply lookup_insert_eq.
  - reflexivity.
Defined.

(** ** The turn loop *)

Section LoopFacts.

Context {R G : Type} `{RunnerLike R G}.

Lemma async_for_never_raises (fuel : nat) :
  forall (g : G) (t : option string),
    match async_for fuel g t with
    | Some (Raise _, _) => False
    | _ => True
    end.
Proof.
  induction fuel as [|fuel IH]; intros g t; [done|].
  rewrite async_for_S.
  destruct (anext g) as [[e|] g']; [|done].
  destruct (is_final_response e); [|apply IH].
  by destruct (on_final_response_returns e t) as [r ->].
Qed.

Lemma async_for_never_ending (fuel : nat) :
  forall (g : G) (t : option string),
    (forall n, exists e, pull n g = Some e /\ is_final_response e = false) ->
    async_for fuel g t = None.
Proof.
  induction fuel as [|fuel IH]; intros g t Hall; [done|].
  rewrite async_for_S.
  destruct (Hall 0) as (e0 & H0 & Hn0). rewrite pull_0 in H0.
  destruct (anext g) as [[e1|] g'] eqn:E; simpl in H0; [|done].
  injection H0 as ->. rewrite Hn0. apply IH.
  intros n. destruct (Hall (S n)) as (e & He & Hn).
  rewrite pull_S, E in He. eauto.
Qed.

(** X6: the call never raises: whatever the events are, the access to
    the first content part is guarded, so a call that comes back comes
    back with a value. *)
Theorem call_agent_async_never_raises (fuel : nat) (query : string)
    (runner : R) (user_id session_id : string) :
  match call_agent_async fuel query runner user_id session_id with
  | Some (Raise _, _) => False
  | _ => True
  end.
Proof. apply async_for_never_raises. Qed.

(** X7: when the first final event has content parts, the call returns
    the text of the first part, whatever the other parts, the
    escalation flag and the error message of the event are. *)
Theorem first_part_text_returned (query : string) (runner : R)
    (user_id session_id : string) (k fuel : nat) (e : Event) :
  let g := run_async runner user_id session_id (new_message query) in
  (forall i, i < k ->
     exists e', pull i g = Some e' /\ is_final_response e' = false) ->
  pull k g = Some e ->
  is_final_response e = true ->
  content_and_parts e = true ->
  k < fuel ->
  exists c p ps,
    content e = Some c /\ parts c = Some (p :: ps) /\
    call_agent_async fuel query runner user_id session_id
      = Some (Return (text p), after (S k) g).
Proof.
  intros g Hpre Hk He Hc Hf.
  destruct (on_final_response_text e (Some no_response) Hc)
    as (c & p & ps & Hcont & Hparts & Hres).
  exists c, p, ps. split; [done|]. split; [done|].
  rewrite <- Hres. by apply call_agent_async_first_final.
Qed.

(** X8: when the first final event has neither content parts nor an
    escalation, the call returns the fixed text and stops there: its
    error message is not used and later events are not asked for. *)
Theorem empty_final_event_gives_fallback (query : string) (runner : R)
    (user_id session_id : string) (k fuel : nat) (e : Event) :
  let g := run_async runner user_id session_id (new_message query) in
  (forall i, i < k ->
     exists e', pull i g = Some e' /\ is_final_response e' = false) ->
  pull k g = Some e ->
  is_final_response e = true ->
  content_and_parts e = false ->
  actions_and_escalate e = false ->
  k < fuel ->
  call_agent_async fuel query runner user_id session_id
    = Some (Return (Some no_response), after (S k) g).
Proof.
  intros g Hpre Hk He Hc Ha Hf.
  rewrite (call_agent_async_first_final query runner user_id session_id
             k fuel e Hpre Hk He Hf).
  unfold on_final_response. by rewrite Hc, Ha.
Qed.

(** X9: the loop has no bound of its own: on a sequence that goes on
    for ever without a final event the call is still running after any
    number of steps. *)
Theorem endless_turn_never_returns (fuel : nat) (query : string)
    (runner : R) (user_id session_id : string) :
  (forall n, exists e,
     pull n (run_async runner user_id session_id (new_message query)) = Some e /\
     is_final_response e = false) ->
  call_agent_async fuel query runner user_id session_id = None.
Proof. intros Hall. by apply async_for_never_ending. Qed.

End LoopFacts.

Lemma after_stream (n : nat) (i : nat) (f : nat -> Event) :
  after n (i, f) = (n + i, f).
Proof.
  revert i. induction n as [|n IH]; intros i; [done|].
  rewrite after_succ. simpl. rewrite IH. f_equal. lia.
Qed.

Lemma pull_stream (n : nat) (f : nat -> Event) :
  pull n (0, f) = Some (f n).
Proof.
  unfold pull. rewrite after_stream. simpl. by rewrite Nat.add_0_r.
Qed.

Lemma first_part_text_returned_witness :
  call_agent_async 2 "Xin chào!" [ev_tool_call; ev_two_parts; ev_text "later"]
    default_user_id default_session_id
  = Some (Return (Some "Hello!"), [ev_text "later"]).
Proof.
  destruct (first_part_text_returned "Xin chào!"
              [ev_tool_call; ev_two_parts; ev_text "later"]
              default_user_id default_session_id 1 2 ev_two_parts)
    as (c & p & ps & Hc & Hp & Hcall).
  - intros i Hi. apply Nat.lt_1_r in Hi as ->. by exists ev_tool_call.
  - reflexivity.
  - reflexivity.
  - reflexivity.
  - apply Nat.lt_succ_diag_r.
  - injection Hc as <-. injection Hp as <- _. exact Hcall.
Defined.

Lemma empty_final_event_gives_fallback_witness :
  call_agent_async 1 "Xin chào!" [ev_empty_final; ev_text "later"]
    default_user_id default_session_id
  = Some (Return (Some no_response), [ev_text "later"]).
Proof.
  assert (forall i, i < 0 ->
            exists e', pull i [ev_empty_final; ev_text "later"] = Some e' /\
                       is_final_response e' = false) as Hpre.
  { intros i Hi. by apply Nat.nlt_0_r in Hi. }
  exact (empty_final_event_gives_fallback "Xin chào!"
           [ev_empty_final; ev_text "later"]
           default_user_id default_session_id 0 1 ev_empty_final
           Hpre eq_refl eq_refl eq_refl eq_refl (Nat.lt_succ_diag_r 0)).
Defined.

Lemma endless_turn_never_returns_witness :
  call_agent_async 1000 "Xin chào!" (fun _ : nat => ev_tool_call)
    default_user_id default_session_id = None.
Proof.
  apply (endless_turn_never_returns 1000 "Xin chào!" (fun _ : nat => ev_tool_call)).
  intros n. exists ev_tool_call. split; [|reflexivity].
  apply (pull_stream n (fun _ => ev_tool_call)).
Defined.

(** ** The example conversation *)










(** An answer without text is printed as the word None. *)
Example main_prints_none :
  match main textless_engine 2 with
  | Some (out, r) =>
      r = Return tt /\ out !! 4 = Some "🤖 Agent: None" /\ length out = 14
  | None => False
  end.
Proof. vm_compute. split_and!; reflexivity. Qed.



(** X12: the session that create_session_and_runner creates is the one
    that its runner looks up with the ids it returns: the first turn on
    the returned runner finds an empty history and leaves the user
    message followed by at most one agent message. *)
Theorem created_session_serves_first_turn
    (engine : Agent -> Session -> Content -> list Event) (agent : Agent)
    (app_name user_id session_id query : string) (fuel : nat)
    (store : gmap SessionKey Session) (runner : Runner)
    (user_id' session_id' : string) :
  create_session_and_runner engine agent app_name user_id session_id
    = (store, runner, user_id', session_id') ->
  (forall s, length (engine agent s (new_message query)) < fuel) ->
  exists res st ams sess',
    call_agent_async fuel query runner user_id' session_id'
      = Some (Return res, st) /\
    rs_store st !! (app_name, user_id, session_id) = Some sess' /\
    history sess' = {| msg_role := RoleUser; msg_text := query |} :: ams /\
    length ams <= 1.
Proof.
  rewrite create_session_and_runner_store. intros [= <- <- <- <-] Hfuel.
  set (fresh := {| applicationName := app_name; userId := user_id;
                   sessionId := session_id; history := [] |}).
  set (runner := {| agent := agent; app_name := app_name;
                    session_service := _; engine := engine |}).
  destruct (call_agent_async_history runner query user_id session_id fresh fuel)
    as (res & st & ams & Hrun & Hk & Hlen & _).
  - apply lookup_singleton_eq.
  - apply Hfuel.
  - exists res, st, ams,
      (extend fresh ({| msg_role := RoleUser; msg_text := query |} :: ams)).
    split; [exact Hrun|]. split; [exact Hk|]. done.
Qed.

Lemma created_session_serves_first_turn_witness :
  exists res st ams sess',
    call_agent_async 4 "hello" (demo_runner demo_engine)
      default_user_id default_session_id = Some (Return res, st) /\
    rs_store st !! demo_key = Some sess' /\
    history sess' = {| msg_role := RoleUser; msg_text := "hello" |} :: ams /\
    length ams <= 1.
Proof.
  apply (created_session_serves_first_turn demo_engine root_agent
           default_app_name default_user_id default_session_id "hello" 4
           (create_session_and_runner demo_engine root_agent default_app_name
              default_user_id default_session_id).1.1.1
           (demo_runner demo_engine) default_user_id default_session_id).
  - reflexivity.
  - intros s. apply Nat.lt_succ_diag_r.
Defined.

(** X13: a call that stops at a final event returns [None] exactly when
    that event has content parts and the first of them has no text; in
    every other case it returns a text. *)
Theorem none_only_from_textless_part {R G : Type} `{RunnerLike R G}
    (query : string) (runner : R) (user_id session_id : string)
    (k fuel : nat) (e : Event) :
  let g := run_async runner user_id session_id (new_message query) in
  (forall i, i < k ->
     exists e', pull i g = Some e' /\ is_final_response e' = false) ->
  pull k g = Some e ->
  is_final_response e = true ->
  k < fuel ->
  (call_agent_async fuel query runner user_id session_id
     = Some (Return None, after (S k) g)
   <-> exists c p ps,
         content e = Some c /\ parts c = Some (p :: ps) /\ text p = None).
Proof.
  intros g Hpre Hk He Hf.
  rewrite (call_agent_async_first_final query runner user_id session_id
             k fuel e Hpre Hk He Hf).
  destruct (content_and_parts e) eqn:Hc.
  - destruct (on_final_response_text e (Some no_response) Hc)
      as (c & p & ps & Hcont & Hparts & ->).
    split.
    + intros [= Ht]. by exists c, p, ps.
    + intros (c' & p' & ps' & Hc' & Hp' & Ht).
      rewrite Hcont in Hc'. injection Hc' as <-.
      rewrite Hparts in Hp'. injection Hp' as <- _. by rewrite Ht.
  - assert (exists t, on_final_response e (Some no_response) = Return (Some t))
      as [t ->].
    { unfold on_final_response. rewrite Hc.
      destruct (actions_and_escalate e); eauto. }
    split; [done|].
    intros (c & p & ps & Hcont & Hparts & _).
    unfold content_and_parts in Hc. by rewrite Hcont, Hparts in Hc.
Qed.

Lemma none_only_from_textless_part_witness :
  call_agent_async 2 "Xin chào!" [ev_tool_call; ev_final_without_text]
    default_user_id default_session_id = Some (Return None, []).
Proof.
  assert (forall i, i < 1 ->
            exists e', pull i [ev_tool_call; ev_final_without_text] = Some e' /\
                       is_final_response e' = false) as Hpre.
  { intros i Hi. apply Nat.lt_1_r in Hi as ->. by exists ev_tool_call. }
  apply (proj2 (none_only_from_textless_part "Xin chào!"
                  [ev_tool_call; ev_final_without_text]
                  default_user_id default_session_id 1 2 ev_final_without_text
                  Hpre eq_refl eq_refl (Nat.lt_succ_diag_r 1))).
  by exists {| role := Some "model"; parts := Some [ {| text := None |} ] |},
            {| text := None |}, [].
Defined.
